(** * Proton Mail Bridge GUI: the Sentry bootstrap (SentryUtils.cpp)

    A shallow embedding of
    [internal/frontend/bridge-gui/bridge-gui/SentryUtils.cpp] and the
    properties its specification states about it.

    The file has three layers:
    - the libraries the source calls (Qt's byte arrays, hashing, paths and
      directories; the sentry-native client), modelled far enough to run
      the source's functions;
    - the functions of SentryUtils.cpp, written in a small outcome-and-state
      monad in the order of the source's statements;
    - the theorems. *)

From Stdlib Require Import ZArith List String Ascii Lia.
From stdpp Require Import gmap strings list.

Open Scope Z_scope.

(** ** Strings and byte arrays

    A [QString] is held by its UTF-8 encoding, so that [QString::toUtf8],
    [QString::toStdString] and the implicit conversions from and to
    [const char *] are all the identity.  A [QByteArray] is a sequence of
    8-bit characters as well. *)

Definition QString : Type := string.
Definition QByteArray : Type := string.

Definition byte_of_Z (z : Z) : ascii := ascii_of_N (Z.to_N (z mod 256)).
Definition Z_of_byte (c : ascii) : Z := Z.of_N (N_of_ascii c).

Definition bytes_of (s : string) : list Z := map Z_of_byte (list_ascii_of_string s).
Definition string_of_bytes (l : list Z) : string :=
  string_of_list_ascii (map byte_of_Z l).

(** ** SHA-256 (FIPS 180-4), the algorithm behind
    [QCryptographicHash::hash(_, QCryptographicHash::Sha256)] *)

Module Sha256.

Definition word (x : Z) : Z := x mod 2 ^ 32.
Definition add32 (x y : Z) : Z := word (x + y).
Definition rotr (n x : Z) : Z :=
  Z.lor (Z.shiftr x n) (word (Z.shiftl x (32 - n))).
Definition not32 (x : Z) : Z := Z.lxor x 0xFFFFFFFF.

Definition Ch (x y z : Z) : Z := Z.lxor (Z.land x y) (Z.land (not32 x) z).
Definition Maj (x y z : Z) : Z :=
  Z.lxor (Z.lxor (Z.land x y) (Z.land x z)) (Z.land y z).
Definition Sigma0 (x : Z) : Z := Z.lxor (Z.lxor (rotr 2 x) (rotr 13 x)) (rotr 22 x).
Definition Sigma1 (x : Z) : Z := Z.lxor (Z.lxor (rotr 6 x) (rotr 11 x)) (rotr 25 x).
Definition sigma0 (x : Z) : Z := Z.lxor (Z.lxor (rotr 7 x) (rotr 18 x)) (Z.shiftr x 3).
Definition sigma1 (x : Z) : Z := Z.lxor (Z.lxor (rotr 17 x) (rotr 19 x)) (Z.shiftr x 10).

(** The constants are the first 32 bits of the fractional parts of the
    cube roots (square roots for the initial hash value) of the first
    primes: [root k n] is the integer [k]-th root of [n], by bisection. *)
Fixpoint bisect (fuel : nat) (k n lo hi : Z) : Z :=
  match fuel with
  | O => lo
  | S fuel' =>
      let mid := (lo + hi) / 2 in
      if mid ^ k <=? n then bisect fuel' k n mid hi
      else bisect fuel' k n lo mid
  end.

Definition root (k n : Z) : Z := bisect 64 k n 0 (2 ^ 40).

Definition fraction_bits (k p : Z) : Z := word (root k (p * 2 ^ (32 * k))).

Definition primes : list Z :=
  [2; 3; 5; 7; 11; 13; 17; 19; 23; 29; 31; 37; 41; 43; 47; 53;
   59; 61; 67; 71; 73; 79; 83; 89; 97; 101; 103; 107; 109; 113; 127; 131;
   137; 139; 149; 151; 157; 163; 167; 173; 179; 181; 191; 193; 197; 199;
   211; 223; 227; 229; 233; 239; 241; 251; 257; 263; 269; 271; 277; 281;
   283; 293; 307; 311].

Definition K : list Z := Eval vm_compute in map (fraction_bits 3) primes.

(** The eight working variables, and the chaining value between blocks. *)
Record regs : Type := Regs {
  ra : Z; rb : Z; rc : Z; rd : Z; re : Z; rf : Z; rg : Z; rh : Z
}.

Definition regs_of (l : list Z) : regs :=
  Regs (nth 0 l 0) (nth 1 l 0) (nth 2 l 0) (nth 3 l 0)
       (nth 4 l 0) (nth 5 l 0) (nth 6 l 0) (nth 7 l 0).

Definition H0 : regs :=
  Eval vm_compute in regs_of (map (fraction_bits 2) (firstn 8 primes)).

(** Padding: a single 1 bit, zeros up to 56 modulo 64 bytes, then the
    length in bits as a 64-bit big-endian integer. *)
Definition be_bytes (n : nat) (x : Z) : list Z :=
  map (fun i => Z.shiftr x (8 * Z.of_nat i) mod 256) (rev (seq 0 n)).

Definition pad (msg : list Z) : list Z :=
  let len := Z.of_nat (length msg) in
  let zeros := Z.to_nat ((55 - len) mod 64) in
  msg ++ 0x80 :: repeat 0 zeros ++ be_bytes 8 (8 * len).

Fixpoint be_words (n : nat) (bs : list Z) : list Z :=
  match n, bs with
  | S n', b0 :: b1 :: b2 :: b3 :: rest =>
      (Z.shiftl b0 24 + Z.shiftl b1 16 + Z.shiftl b2 8 + b3) :: be_words n' rest
  | _, _ => []
  end.

(** The message schedule, newest word first while it is built. *)
Fixpoint extend (n : nat) (ws : list Z) : list Z :=
  match n with
  | O => ws
  | S n' =>
      let wt := add32 (add32 (sigma1 (nth 1 ws 0)) (nth 6 ws 0))
                      (add32 (sigma0 (nth 14 ws 0)) (nth 15 ws 0)) in
      extend n' (wt :: ws)
  end.

Definition schedule (block : list Z) : list Z :=
  rev (extend 48 (rev (be_words 16 block))).

Definition round (s : regs) (kw : Z * Z) : regs :=
  let t1 := add32 (add32 (add32 (rh s) (Sigma1 (re s)))
                         (add32 (Ch (re s) (rf s) (rg s)) (fst kw))) (snd kw) in
  let t2 := add32 (Sigma0 (ra s)) (Maj (ra s) (rb s) (rc s)) in
  Regs (add32 t1 t2) (ra s) (rb s) (rc s) (add32 (rd s) t1) (re s) (rf s) (rg s).

Definition compress (h : regs) (block : list Z) : regs :=
  let s := fold_left round (combine K (schedule block)) h in
  Regs (add32 (ra h) (ra s)) (add32 (rb h) (rb s))
       (add32 (rc h) (rc s)) (add32 (rd h) (rd s))
       (add32 (re h) (re s)) (add32 (rf h) (rf s))
       (add32 (rg h) (rg s)) (add32 (rh h) (rh s)).

Fixpoint blocks (n : nat) (h : regs) (bs : list Z) : regs :=
  match n with
  | O => h
  | S n' => blocks n' (compress h (firstn 64 bs)) (skipn 64 bs)
  end.

Definition digest_bytes (h : regs) : list Z :=
  be_bytes 4 (ra h) ++ be_bytes 4 (rb h) ++ be_bytes 4 (rc h) ++
  be_bytes 4 (rd h) ++ be_bytes 4 (re h) ++ be_bytes 4 (rf h) ++
  be_bytes 4 (rg h) ++ be_bytes 4 (rh h).

Definition hash (msg : list Z) : list Z :=
  let padded := pad msg in
  digest_bytes (blocks (Nat.div (length padded) 64) H0 padded).

End Sha256.

(** [QCryptographicHash::hash(data, QCryptographicHash::Sha256)]. *)
Definition QCryptographicHash_hash_Sha256 (data : QByteArray) : QByteArray :=
  string_of_bytes (Sha256.hash (bytes_of data)).

(** [QByteArray::toHex]: two lowercase hexadecimal digits per byte, high
    nibble first. *)
Definition hex_digits : string := "0123456789abcdef".

Definition hex_digit (n : Z) : ascii :=
  match String.get (Z.to_nat n) hex_digits with
  | Some c => c
  | None => "0"%char
  end.

Fixpoint QByteArray_toHex (b : QByteArray) : QByteArray :=
  match b with
  | EmptyString => EmptyString
  | String c rest =>
      String (hex_digit (Z_of_byte c / 16))
        (String (hex_digit (Z_of_byte c mod 16)) (QByteArray_toHex rest))
  end.

(** The characters [0]..[9] and [a]..[f]. *)
Definition is_lower_hex (c : ascii) : bool :=
  let n := Z_of_byte c in
  (48 <=? n) && (n <=? 57) || (97 <=? n) && (n <=? 102).

(** [QString("...").arg(a1, a2)]: the place markers [%1] and [%2] of the
    format are replaced by [a1] and [a2] in one pass over the format, so
    that a marker occurring inside an argument is left as it is.  (Qt knows
    markers up to [%99]; the source's format has these two only.) *)
Fixpoint QString_arg (fmt a1 a2 : QString) : QString :=
  match fmt with
  | EmptyString => EmptyString
  | String "%" (String "1" rest) => a1 +:+ QString_arg rest a1 a2
  | String "%" (String "2" rest) => a2 +:+ QString_arg rest a1 a2
  | String c rest => String c (QString_arg rest a1 a2)
  end.

(** The line feed, [\n] in the source's literals. *)
Definition LF : string := String (ascii_of_nat 10) EmptyString.

Definition QString_isEmpty (s : QString) : bool :=
  match s with EmptyString => true | String _ _ => false end.

(** ** Paths and directories

    An absolute path is the name of a file-system root (["/"], or a drive
    such as ["C:/"]) and the names below it.  [QDir] holds such a path. *)

Definition Path : Type := string * list string.

Definition Path_toQString (p : Path) : QString :=
  fst p +:+ String.concat "/" (snd p).

(** [QDir(dir).absoluteFilePath(fileName)] for a relative [fileName]. *)
Definition QDir_absoluteFilePath (dir : Path) (fileName : string) : Path :=
  (fst dir, snd dir ++ [fileName]).

(** What the file system holds at a path; a directory remembers when it
    was made, so that a directory made anew differs from the one that was
    there. *)
Inductive Node : Type :=
  | Directory (created : nat)
  | RegularFile (contents : string).

(** [QDir::mkpath]: goes down from the root, makes every directory that is
    missing and stops at the first one it cannot make (the name is taken
    by a file, or the system refuses: [may_create]). *)
Fixpoint mkpath_walk (may_create : Path -> bool) (now : nat) (root : string)
    (above below : list string) (fs : gmap Path Node) : bool * gmap Path Node :=
  match below with
  | [] => (true, fs)
  | name :: below' =>
      let here : Path := (root, above ++ [name]) in
      match fs !! here with
      | Some (Directory _) =>
          mkpath_walk may_create now root (above ++ [name]) below' fs
      | Some (RegularFile _) => (false, fs)
      | None =>
          if may_create here
          then mkpath_walk may_create now root (above ++ [name]) below'
                 (<[here := Directory now]> fs)
          else (false, fs)
      end
  end.

(** ** bridgepp: the operating-system family ([bridgepp::OS], [os()])

    The enumeration is declared in bridgepp/BridgeUtils.h; its enumerators
    are the ones [getApiOS] names.  [OtherOS] stands for a value of the
    underlying type that is none of them: the [default] label of a
    [switch]. *)
Inductive OS : Type :=
  | Linux
  | MacOS
  | Windows
  | OtherOS (raw : Z).

(** ** The sentry-native client *)

Inductive sentry_level_t : Type :=
  | SENTRY_LEVEL_DEBUG
  | SENTRY_LEVEL_INFO
  | SENTRY_LEVEL_WARNING
  | SENTRY_LEVEL_ERROR
  | SENTRY_LEVEL_FATAL.

(** The 128 bits of an event identifier. *)
Definition sentry_uuid_t : Type := Z.

(** Keyed entries in the order they were first set. *)
Fixpoint assoc_set {V : Type} (k : string) (v : V) (l : list (string * V))
    : list (string * V) :=
  match l with
  | [] => [(k, v)]
  | (k', v') :: rest =>
      if String.eqb k' k then (k, v) :: rest
      else (k', v') :: assoc_set k v rest
  end.

Fixpoint assoc_get {V : Type} (k : string) (l : list (string * V)) : option V :=
  match l with
  | [] => None
  | (k', v') :: rest => if String.eqb k' k then Some v' else assoc_get k rest
  end.

#[warnings="-register-all"]
Inductive sentry_value_t : Type :=
  | sentry_value_new_null
  | sentry_value_new_string (s : string)
  | sentry_value_object (entries : list (string * sentry_value_t)).

Definition sentry_value_new_object : sentry_value_t := sentry_value_object [].

(** Sets the key of an object, replacing the value it had; any other value
    is left as it is. *)
Definition sentry_value_set_by_key (v : sentry_value_t) (k : string)
    (x : sentry_value_t) : sentry_value_t :=
  match v with
  | sentry_value_object entries => sentry_value_object (assoc_set k x entries)
  | _ => v
  end.

Definition sentry_value_get_by_key (v : sentry_value_t) (k : string)
    : sentry_value_t :=
  match v with
  | sentry_value_object entries =>
      match assoc_get k entries with
      | Some x => x
      | None => sentry_value_new_null
      end
  | _ => sentry_value_new_null
  end.

Definition sentry_value_new_exception (type value : string) : sentry_value_t :=
  sentry_value_object
    [("type"%string, sentry_value_new_string type);
     ("value"%string, sentry_value_new_string value)].

(** An event, as far as this module fills it in. *)
Record sentry_event : Type := SentryEvent {
  ev_level : sentry_level_t;
  ev_logger : string;
  ev_message : string;
  ev_exceptions : list sentry_value_t
}.

Definition sentry_value_new_message_event (level : sentry_level_t)
    (logger text : string) : sentry_event :=
  SentryEvent level logger text [].

Definition sentry_event_add_exception (event : sentry_event)
    (exception : sentry_value_t) : sentry_event :=
  SentryEvent (ev_level event) (ev_logger event) (ev_message event)
              (ev_exceptions event ++ [exception]).

Record sentry_options_t : Type := SentryOptions {
  opt_dsn : option string;
  opt_database_path : option string;
  opt_release : option string;
  opt_environment : option string;
  opt_max_breadcrumbs : Z;
  opt_handler_path : option string
}.

Definition sentry_options_set_dsn (o : sentry_options_t) (dsn : string) :=
  SentryOptions (Some dsn) (opt_database_path o) (opt_release o)
    (opt_environment o) (opt_max_breadcrumbs o) (opt_handler_path o).

Definition sentry_options_set_database_path (o : sentry_options_t) (path : string) :=
  SentryOptions (opt_dsn o) (Some path) (opt_release o)
    (opt_environment o) (opt_max_breadcrumbs o) (opt_handler_path o).

Definition sentry_options_set_release (o : sentry_options_t) (release : string) :=
  SentryOptions (opt_dsn o) (opt_database_path o) (Some release)
    (opt_environment o) (opt_max_breadcrumbs o) (opt_handler_path o).

Definition sentry_options_set_environment (o : sentry_options_t) (env : string) :=
  SentryOptions (opt_dsn o) (opt_database_path o) (opt_release o)
    (Some env) (opt_max_breadcrumbs o) (opt_handler_path o).

Definition sentry_options_set_max_breadcrumbs (o : sentry_options_t) (n : Z) :=
  SentryOptions (opt_dsn o) (opt_database_path o) (opt_release o)
    (opt_environment o) n (opt_handler_path o).

Definition sentry_options_set_handler_path (o : sentry_options_t) (path : string) :=
  SentryOptions (opt_dsn o) (opt_database_path o) (opt_release o)
    (opt_environment o) (opt_max_breadcrumbs o) (Some path).

(** ** The world the module runs in *)

(** What the module reads and never changes: the answers of bridgelib,
    bridgepp and [QSysInfo], the options [sentry_options_new] starts from
    (sentry-native takes some of them from the process environment), and
    how the environment answers the calls that can fail.  Those answers
    may differ from one call to the next: they take the number of calls
    made before. *)
Record Platform : Type := {
  userDataDir : Path;
  os_family : OS;
  goos : QString;
  machineHostName : QString;
  currentCpuArchitecture : QString;
  options_default : sentry_options_t;
  mkdir_allowed : nat -> Path -> bool;
  init_result : nat -> sentry_options_t -> Z;
  capture_result : nat -> sentry_event -> sentry_uuid_t
}.

(** The calls that leave the process, with what they returned. *)
Inductive Call : Type :=
  | call_mkpath (path : Path) (ok : bool)
  | call_sentry_init (options : sentry_options_t) (rc : Z)
  | call_stderr (text : string)
  | call_sentry_set_tag (key value : string)
  | call_sentry_set_user (user : sentry_value_t)
  | call_sentry_capture_event (event : sentry_event) (id : sentry_uuid_t).

Record World : Type := mkWorld {
  platform : Platform;
  fs : gmap Path Node;                 (* the directories and files on disk *)
  scope_tags : list (string * string); (* the client's scope: its tags *)
  scope_user : sentry_value_t;         (* the client's scope: its user *)
  calls : list Call                    (* oldest first *)
}.

Definition now (w : World) : nat := length (calls w).

(** ** Outcomes and state

    A C++ call returns, throws or ends the process.  [mbind] hands on what
    is not a return, as the source does: it has neither [try] nor [catch]. *)
Inductive Outcome (A : Type) : Type :=
  | Returned (a : A)
  | Thrown (what : string)
  | Aborted.
Arguments Returned {A} a.
Arguments Thrown {A} what.
Arguments Aborted {A}.

Definition M (A : Type) : Type := World -> Outcome A * World.

#[global] Instance M_ret : MRet M := fun A a w => (Returned a, w).

#[global] Instance M_bind : MBind M := fun A B k m w =>
  match m w with
  | (Returned a, w') => k a w'
  | (Thrown what, w') => (Thrown what, w')
  | (Aborted, w') => (Aborted, w')
  end.

Definition reads {A : Type} (f : Platform -> A) : M A :=
  fun w => (Returned (f (platform w)), w).

Definition record (c : Call) (w : World) : World :=
  mkWorld (platform w) (fs w) (scope_tags w) (scope_user w) (calls w ++ [c]).

(** *** The calls of the libraries *)

Definition bridgelib_userDataDir : M Path := reads userDataDir.
Definition bridgelib_goos : M QString := reads goos.
Definition os : M OS := reads os_family.
Definition QSysInfo_machineHostName : M QString := reads machineHostName.
Definition QSysInfo_currentCpuArchitecture : M QString :=
  reads currentCpuArchitecture.
Definition sentry_options_new : M sentry_options_t := reads options_default.

Definition QDir_mkpath (path : Path) : M bool := fun w =>
  let '(ok, fs') :=
    mkpath_walk (mkdir_allowed (platform w) (now w)) (now w)
                (fst path) [] (snd path) (fs w) in
  (Returned ok,
   record (call_mkpath path ok)
     (mkWorld (platform w) fs' (scope_tags w) (scope_user w) (calls w))).

Definition sentry_init (options : sentry_options_t) : M Z := fun w =>
  let rc := init_result (platform w) (now w) options in
  (Returned rc, record (call_sentry_init options rc) w).

(** [QTextStream(stderr) << text]. *)
Definition stderr_write (text : string) : M unit := fun w =>
  (Returned tt, record (call_stderr text) w).

Definition sentry_set_tag (key value : string) : M unit := fun w =>
  (Returned tt,
   record (call_sentry_set_tag key value)
     (mkWorld (platform w) (fs w) (assoc_set key value (scope_tags w))
              (scope_user w) (calls w))).

Definition sentry_set_user (user : sentry_value_t) : M unit := fun w =>
  (Returned tt,
   record (call_sentry_set_user user)
     (mkWorld (platform w) (fs w) (scope_tags w) user (calls w))).

Definition sentry_capture_event (event : sentry_event) : M sentry_uuid_t :=
  fun w =>
    let id := capture_result (platform w) (now w) event in
    (Returned id, record (call_sentry_capture_event event id) w).

(** ** SentryUtils.cpp *)

(** BuildConfig.h, which the build writes: its macros are a parameter of
    the module. *)
Record BuildConfig : Type := {
  PROJECT_DSN_SENTRY : string;
  PROJECT_CRASHPAD_HANDLER_PATH : string;
  PROJECT_FULL_NAME : string;
  PROJECT_REVISION : string;
  PROJECT_VER : string;
  PROJECT_BUILD_ENV : string
}.

Module SentryUtils.
Section WithBuildConfig.

Variable cfg : BuildConfig.

Definition LoggerName : string := "bridge-gui".

Definition sentryCacheDir : M QString :=
  root ← bridgelib_userDataDir;
  let path := QDir_absoluteFilePath root "sentry_cache" in
  _ ← QDir_mkpath path;
  mret (Path_toQString path).

Definition getProtectedHostname : M QByteArray :=
  name ← QSysInfo_machineHostName;
  let hostname := QCryptographicHash_hash_Sha256 name in
  mret (QByteArray_toHex hostname).

Definition getApiOS : M QString :=
  o ← os;
  match o with
  | MacOS => mret "macos"%string
  | Windows => mret "windows"%string
  | Linux | OtherOS _ => mret "linux"%string
  end.

Definition appVersion (version : QString) : M QString :=
  label ← getApiOS;
  mret (QString_arg "%1-bridge@%2" label version).

Definition newSentryOptions (sentryDNS cacheDir : string) : M sentry_options_t :=
  sentryOptions ← sentry_options_new;
  let sentryOptions := sentry_options_set_dsn sentryOptions sentryDNS in
  let sentryOptions := sentry_options_set_database_path sentryOptions cacheDir in
  release ← appVersion (PROJECT_VER cfg);
  let sentryOptions := sentry_options_set_release sentryOptions release in
  let sentryOptions := sentry_options_set_max_breadcrumbs sentryOptions 50 in
  let sentryOptions :=
    sentry_options_set_environment sentryOptions (PROJECT_BUILD_ENV cfg) in
  mret sentryOptions.

Definition setSentryReportScope : M unit :=
  v ← bridgelib_goos;
  _ ← sentry_set_tag "OS" v;
  _ ← sentry_set_tag "Client" (PROJECT_FULL_NAME cfg);
  _ ← sentry_set_tag "Version" (PROJECT_REVISION cfg);
  v ← QSysInfo_currentCpuArchitecture;
  _ ← sentry_set_tag "HostArch" v;
  v ← getProtectedHostname;
  _ ← sentry_set_tag "server_name" v;
  let user := sentry_value_new_object in
  v ← getProtectedHostname;
  let user := sentry_value_set_by_key user "id" (sentry_value_new_string v) in
  sentry_set_user user.

Definition initSentry : M unit :=
  cacheDir ← sentryCacheDir;
  sentryOptions ← newSentryOptions (PROJECT_DSN_SENTRY cfg) cacheDir;
  let sentryOptions :=
    if negb (QString_isEmpty (PROJECT_CRASHPAD_HANDLER_PATH cfg))
    then sentry_options_set_handler_path sentryOptions
           (PROJECT_CRASHPAD_HANDLER_PATH cfg)
    else sentryOptions in
  rc ← sentry_init sentryOptions;
  _ ← (if negb (rc =? 0)
       then stderr_write ("Failed to initialize sentry" +:+ LF)
       else mret tt);
  setSentryReportScope.

Definition reportSentryEvent (level : sentry_level_t) (message : string)
    : M sentry_uuid_t :=
  let event := sentry_value_new_message_event level LoggerName message in
  sentry_capture_event event.

Definition reportSentryException (level : sentry_level_t)
    (message exceptionType exception : string) : M sentry_uuid_t :=
  let event := sentry_value_new_message_event level LoggerName message in
  let event :=
    sentry_event_add_exception event
      (sentry_value_new_exception exceptionType exception) in
  sentry_capture_event event.

End WithBuildConfig.
End SentryUtils.

(** ** Observations

    What the theorems say of a run: its outcome, the world it leaves, and
    what can be read off that world. *)

(** What a call returned, and the world it left. *)
Definition outcome {A : Type} (m : M A) (w : World) : Outcome A := fst (m w).
Definition after {A : Type} (m : M A) (w : World) : World := snd (m w).

(** What [os()] says, as [getApiOS] names it. *)
Definition label_of (o : OS) : QString :=
  match o with
  | MacOS => "macos"
  | Windows => "windows"
  | Linux => "linux"
  | OtherOS _ => "linux"
  end.

(** The entries of a keyed list under one key. *)
Definition entries_of {V : Type} (k : string) (l : list (string * V))
    : list (string * V) :=
  List.filter (fun kv => String.eqb (fst kv) k) l.

(** The events handed to [sentry_capture_event] so far, oldest first. *)
Definition events_captured (w : World) : list sentry_event :=
  flat_map (fun c => match c with
                     | call_sentry_capture_event e _ => [e]
                     | _ => []
                     end) (calls w).

(** The texts written to the standard error so far, oldest first. *)
Definition stderr_of (cs : list Call) : list string :=
  flat_map (fun c => match c with
                     | call_stderr text => [text]
                     | _ => []
                     end) cs.

Definition stderr_written (w : World) : list string := stderr_of (calls w).

(** The tags and the user [setSentryReportScope] writes on a platform. *)
Definition protected_hostname (p : Platform) : QByteArray :=
  QByteArray_toHex (QCryptographicHash_hash_Sha256 (machineHostName p)).

Definition tags_written (cfg : BuildConfig) (p : Platform) : list (string * string) :=
  [("OS", goos p);
   ("Client", PROJECT_FULL_NAME cfg);
   ("Version", PROJECT_REVISION cfg);
   ("HostArch", currentCpuArchitecture p);
   ("server_name", protected_hostname p)].

Definition user_written (p : Platform) : sentry_value_t :=
  sentry_value_object [("id", sentry_value_new_string (protected_hostname p))].

Definition scope_calls (cfg : BuildConfig) (p : Platform) : list Call :=
  map (fun kv => call_sentry_set_tag (fst kv) (snd kv)) (tags_written cfg p)
  ++ [call_sentry_set_user (user_written p)].

(** The specification's [reportException]: the event of [reportEvent]
    with one exception object attached, handed to the client. *)
Definition reportException_as_specified (level : sentry_level_t)
    (message exceptionType exceptionValue : string) : M sentry_uuid_t :=
  sentry_capture_event
    (sentry_event_add_exception
       (SentryEvent level "bridge-gui" message [])
       (sentry_value_new_exception exceptionType exceptionValue)).

(** Reports made after the scope is set. *)
Inductive Report : Type :=
  | report_event (level : sentry_level_t) (message : string)
  | report_exception (level : sentry_level_t)
      (message exceptionType exception : string).

Definition do_report (r : Report) : M sentry_uuid_t :=
  match r with
  | report_event level message => SentryUtils.reportSentryEvent level message
  | report_exception level message exceptionType exception =>
      SentryUtils.reportSentryException level message exceptionType exception
  end.

Fixpoint after_reports (rs : list Report) (w : World) : World :=
  match rs with
  | [] => w
  | r :: rs' => after_reports rs' (after (do_report r) w)
  end.

(** The event a report hands to the client. *)
Definition event_of (r : Report) : sentry_event :=
  match r with
  | report_event level message => SentryEvent level "bridge-gui" message []
  | report_exception level message exceptionType exception =>
      SentryEvent level "bridge-gui" message
        [sentry_value_new_exception exceptionType exception]
  end.

(** The tags of a scope after the writes of [setSentryReportScope]. *)
Definition write_tags (cfg : BuildConfig) (p : Platform)
    (tags : list (string * string)) : list (string * string) :=
  fold_left (fun tags kv => assoc_set (fst kv) (snd kv) tags)
            (tags_written cfg p) tags.

(** Reading hexadecimal back: the value of a digit, and the bytes of a
    string of digit pairs. *)
Definition hex_value (c : ascii) : Z :=
  let n := Z_of_byte c in
  if n <? 58 then n - 48 else n - 87.

Fixpoint hex_decode (h : string) : QByteArray :=
  match h with
  | String hi (String lo rest) =>
      String (byte_of_Z (hex_value hi * 16 + hex_value lo)) (hex_decode rest)
  | _ => EmptyString
  end.

(** The keys [setSentryReportScope] writes, in the order it writes them. *)
Definition scope_keys : list string :=
  ["OS"; "Client"; "Version"; "HostArch"; "server_name"].

Definition has_key {V : Type} (k : string) (l : list (string * V)) : bool :=
  existsb (fun kv => String.eqb (fst kv) k) l.

(** The path [sentryCacheDir] asks for, and the directories from the root
    down to it, itself included. *)
Definition cache_path (w : World) : Path :=
  QDir_absoluteFilePath (userDataDir (platform w)) "sentry_cache".

Fixpoint ways_down (root : string) (above below : list string) : list Path :=
  match below with
  | [] => []
  | name :: below' =>
      (root, above ++ [name]) :: ways_down root (above ++ [name]) below'
  end.

Definition ancestors (path : Path) : list Path :=
  ways_down (fst path) [] (snd path).

Definition is_directory (disk : gmap Path Node) (q : Path) : bool :=
  match disk !! q with
  | Some (Directory _) => true
  | _ => false
  end.

Definition all_directories (disk : gmap Path Node) (path : Path) : bool :=
  forallb (is_directory disk) (ancestors path).

(** ** Worlds to run the module in *)

Definition bridge_build : BuildConfig := {|
  PROJECT_DSN_SENTRY := "https://key@sentry.example/1";
  PROJECT_CRASHPAD_HANDLER_PATH := "/usr/lib/bridge/crashpad_handler";
  PROJECT_FULL_NAME := "Proton Mail Bridge";
  PROJECT_REVISION := "3.0.21+git";
  PROJECT_VER := "3.0.21";
  PROJECT_BUILD_ENV := "dev"
|}.

(** A Linux desktop on which directories can be made ([writable]) or not,
    and on which [sentry_init] returns [rc]. *)
Definition desktop (writable : bool) (rc : Z) : Platform := {|
  userDataDir := ("/", ["home"; "ada"; "bridge-v3"]);
  os_family := Linux;
  goos := "linux";
  machineHostName := "workstation";
  currentCpuArchitecture := "x86_64";
  options_default := SentryOptions None None None (Some "production") 100 None;
  mkdir_allowed := fun _ _ => writable;
  init_result := fun _ _ => rc;
  capture_result := fun n _ => Z.of_nat n
|}.

(** The home directory is there, the scope holds a tag of an earlier run. *)
Definition at_start (p : Platform) : World :=
  mkWorld p
    (<[("/", ["home"]) := Directory 0]>
       (<[("/", ["home"; "ada"]) := Directory 0]> ∅))
    [("OS", "plan9"); ("Build", "nightly")]
    sentry_value_new_null
    [].

(** The same disk with the cache directory made before, and an empty
    scope. *)
Definition with_cache (p : Platform) : World :=
  mkWorld p
    (<[("/", ["home"; "ada"; "bridge-v3"; "sentry_cache"]) := Directory 4]>
       (<[("/", ["home"; "ada"; "bridge-v3"]) := Directory 3]> (fs (at_start p))))
    [] sentry_value_new_null [].

(** A desktop on which a directory can be made before any other call and
    never after. *)
Definition closing_desktop : Platform := {|
  userDataDir := userDataDir (desktop true 0);
  os_family := Linux;
  goos := "linux";
  machineHostName := "workstation";
  currentCpuArchitecture := "x86_64";
  options_default := options_default (desktop true 0);
  mkdir_allowed := fun n _ => Nat.eqb n 0;
  init_result := fun _ _ => 0;
  capture_result := fun n _ => Z.of_nat n
|}.

(** A regular file has the name of the user data directory. *)
Definition with_file_in_the_way (p : Platform) : World :=
  mkWorld p
    (<[("/", ["home"; "ada"; "bridge-v3"]) := RegularFile "notes"]>
       (fs (at_start p)))
    [] sentry_value_new_null [].

(** * Properties *)

(** ** Strings *)

Lemma append_nil_l (s : string) : "" +:+ s = s.
Proof. reflexivity. Qed.

Lemma append_cons (c : ascii) (s t : string) :
  String c s +:+ t = String c (s +:+ t).
Proof. reflexivity. Qed.

Lemma append_nil_r (s : string) : s +:+ "" = s.
Proof.
  induction s as [|c s IH]; [reflexivity |].
  now rewrite append_cons, IH.
Qed.

Lemma append_assoc (a b c : string) : (a +:+ b) +:+ c = a +:+ (b +:+ c).
Proof.
  induction a as [|x a IH]; [reflexivity |].
  now rewrite !append_cons, IH.
Qed.

Lemma length_string_of_list_ascii (l : list ascii) :
  String.length (string_of_list_ascii l) = length l.
Proof. induction l as [|c l IH]; simpl; [reflexivity | now rewrite IH]. Qed.

Lemma length_toHex (b : QByteArray) :
  String.length (QByteArray_toHex b) = (2 * String.length b)%nat.
Proof. induction b as [|c b IH]; simpl; [reflexivity | rewrite IH; lia]. Qed.

Lemma hex_digit_lower (c : ascii) :
  is_lower_hex (hex_digit (Z_of_byte c / 16)) = true
  /\ is_lower_hex (hex_digit (Z_of_byte c mod 16)) = true.
Proof.
  destruct c as [[] [] [] [] [] [] [] []]; split; vm_compute; reflexivity.
Qed.

Lemma toHex_lower (b : QByteArray) :
  forallb is_lower_hex (list_ascii_of_string (QByteArray_toHex b)) = true.
Proof.
  induction b as [|c b IH]; [reflexivity |].
  destruct (hex_digit_lower c) as [Hhi Hlo].
  cbn [QByteArray_toHex list_ascii_of_string forallb].
  now rewrite Hhi, Hlo, IH.
Qed.

(** ** SHA-256 *)

Lemma length_digest_bytes (h : Sha256.regs) :
  length (Sha256.digest_bytes h) = 32%nat.
Proof. unfold Sha256.digest_bytes. rewrite !length_app. reflexivity. Qed.

Lemma length_Sha256 (data : QByteArray) :
  String.length (QCryptographicHash_hash_Sha256 data) = 32%nat.
Proof.
  unfold QCryptographicHash_hash_Sha256, string_of_bytes, Sha256.hash.
  rewrite length_string_of_list_ascii, length_map.
  apply length_digest_bytes.
Qed.

(** ** Running the monad *)

Create Rewrite HintDb run.

Lemma run_bind {A B : Type} (m : M A) (k : A -> M B) (w w' : World) (a : A) :
  m w = (Returned a, w') -> (m ≫= k) w = k a w'.
Proof. intros H. unfold mbind, M_bind. now rewrite H. Qed.

Lemma run_reads {A B : Type} (f : Platform -> A) (k : A -> M B) (w : World) :
  (reads f ≫= k) w = k (f (platform w)) w.
Proof. reflexivity. Qed.

Lemma run_mret {A : Type} (a : A) (w : World) :
  (mret a : M A) w = (Returned a, w).
Proof. reflexivity. Qed.

Lemma run_getApiOS (w : World) :
  SentryUtils.getApiOS w = (Returned (label_of (os_family (platform w))), w).
Proof.
  unfold SentryUtils.getApiOS, os. rewrite run_reads.
  now destruct (os_family (platform w)).
Qed.

Lemma run_appVersion (version : QString) (w : World) :
  SentryUtils.appVersion version w
  = (Returned (label_of (os_family (platform w)) +:+ "-bridge@" +:+ version), w).
Proof.
  unfold SentryUtils.appVersion.
  rewrite (run_bind _ _ _ _ _ (run_getApiOS w)), run_mret.
  cbn [QString_arg]. rewrite !append_cons, append_nil_l, append_nil_r.
  reflexivity.
Qed.

Lemma run_getProtectedHostname (w : World) :
  SentryUtils.getProtectedHostname w
  = (Returned (QByteArray_toHex
                 (QCryptographicHash_hash_Sha256 (machineHostName (platform w)))), w).
Proof. reflexivity. Qed.

#[local] Hint Rewrite run_getApiOS run_appVersion run_getProtectedHostname : run.

(** C3.  Whatever [os()] answers, [getApiOS] returns ["macos"] for macOS,
    ["windows"] for Windows and ["linux"] for Linux and for any value that
    is none of the three; so it returns one of these three strings, and it
    changes nothing. *)
Theorem getApiOS_three_labels (w : World) :
  SentryUtils.getApiOS w
  = (Returned match os_family (platform w) with
              | MacOS => "macos"
              | Windows => "windows"
              | Linux => "linux"
              | OtherOS _ => "linux"
              end, w)
  /\ exists label : QString,
       outcome SentryUtils.getApiOS w = Returned label
       /\ In label ["macos"; "windows"; "linux"].
Proof.
  split; [apply run_getApiOS |].
  unfold outcome. rewrite run_getApiOS. cbn [fst].
  exists (label_of (os_family (platform w))). split; [reflexivity |].
  destruct (os_family (platform w)); cbn; auto.
Qed.

(** C4.  [getProtectedHostname] returns the lowercase hexadecimal form of
    the SHA-256 digest of the host name: 64 characters, each one of
    [0]..[9], [a]..[f]; it changes nothing, and in two worlds with the
    same host name it returns the same string. *)
Theorem getProtectedHostname_deterministic_hex (w1 w2 : World) :
  machineHostName (platform w1) = machineHostName (platform w2) ->
  outcome SentryUtils.getProtectedHostname w1
  = outcome SentryUtils.getProtectedHostname w2
  /\ after SentryUtils.getProtectedHostname w1 = w1
  /\ exists h : QByteArray,
       outcome SentryUtils.getProtectedHostname w1 = Returned h
       /\ h = QByteArray_toHex
                (QCryptographicHash_hash_Sha256 (machineHostName (platform w1)))
       /\ String.length (QCryptographicHash_hash_Sha256
                           (machineHostName (platform w1))) = 32%nat
       /\ String.length h = 64%nat
       /\ forallb is_lower_hex (list_ascii_of_string h) = true.
Proof.
  intros Hname. unfold outcome, after.
  rewrite !run_getProtectedHostname. cbn [fst snd].
  split; [now rewrite Hname |]. split; [reflexivity |].
  eexists. split; [reflexivity |]. split; [reflexivity |].
  split; [apply length_Sha256 |].
  split; [| apply toHex_lower].
  now rewrite length_toHex, length_Sha256.
Qed.

(** C8.  [appVersion version] returns the label of [getApiOS], then
    ["-bridge@"], then the version, and changes nothing; where the label
    is ["linux"], [appVersion "1.2.3"] returns ["linux-bridge@1.2.3"]. *)
Theorem appVersion_format (w : World) (version label : QString) :
  outcome SentryUtils.getApiOS w = Returned label ->
  SentryUtils.appVersion version w
  = (Returned (label +:+ "-bridge@" +:+ version), w)
  /\ (label = "linux" ->
      SentryUtils.appVersion "1.2.3" w = (Returned "linux-bridge@1.2.3", w)).
Proof.
  unfold outcome. rewrite run_getApiOS. cbn [fst].
  intros Hlabel. injection Hlabel as <-.
  split; [apply run_appVersion |].
  intros Hlinux. now rewrite run_appVersion, Hlinux.
Qed.

Lemma run_newSentryOptions (cfg : BuildConfig) (sentryDNS cacheDir : string)
    (w : World) :
  SentryUtils.newSentryOptions cfg sentryDNS cacheDir w
  = (Returned
       (SentryOptions (Some sentryDNS) (Some cacheDir)
          (Some (label_of (os_family (platform w)) +:+ "-bridge@"
                 +:+ PROJECT_VER cfg))
          (Some (PROJECT_BUILD_ENV cfg)) 50
          (opt_handler_path (options_default (platform w)))), w).
Proof.
  unfold SentryUtils.newSentryOptions, sentry_options_new.
  rewrite run_reads, (run_bind _ _ _ _ _ (run_appVersion _ w)).
  reflexivity.
Qed.

#[local] Hint Rewrite run_newSentryOptions : run.

(** C7.  [newSentryOptions dsn cacheDir] returns options whose breadcrumb
    cap is 50, whose DSN and database path are the two arguments, whose
    release is [appVersion PROJECT_VER] and whose environment is
    [PROJECT_BUILD_ENV]; the handler path stays as [sentry_options_new]
    left it.  It makes no call that leaves the process and changes
    nothing. *)
Theorem newSentryOptions_fields (cfg : BuildConfig) (w : World)
    (sentryDNS cacheDir : string) :
  exists (o : sentry_options_t) (release : QString),
    SentryUtils.newSentryOptions cfg sentryDNS cacheDir w = (Returned o, w)
    /\ outcome (SentryUtils.appVersion (PROJECT_VER cfg)) w = Returned release
    /\ opt_max_breadcrumbs o = 50
    /\ opt_dsn o = Some sentryDNS
    /\ opt_database_path o = Some cacheDir
    /\ opt_release o = Some release
    /\ opt_environment o = Some (PROJECT_BUILD_ENV cfg)
    /\ opt_handler_path o = opt_handler_path (options_default (platform w)).
Proof.
  unfold outcome. rewrite run_newSentryOptions, run_appVersion.
  do 2 eexists. repeat split.
Qed.

Lemma events_captured_record (c : Call) (w : World) :
  events_captured (record c w)
  = events_captured w ++ match c with
                         | call_sentry_capture_event e _ => [e]
                         | _ => []
                         end.
Proof.
  unfold events_captured, record. cbn [calls].
  rewrite flat_map_app. cbn [flat_map]. now rewrite app_nil_r.
Qed.

(** C10.  [reportSentryEvent] hands one event to the client: the level,
    the logger ["bridge-gui"], the message, no exception.
    [reportSentryException] hands over that event with one exception
    object added, made of the type and the value.  Each returns the
    identifier [sentry_capture_event] returned, and does nothing else. *)
Theorem reportSentryException_extends_event (w : World)
    (level : sentry_level_t) (message exceptionType exception : string) :
  let event := SentryEvent level "bridge-gui" message [] in
  let thrown := sentry_value_new_exception exceptionType exception in
  let event' := sentry_event_add_exception event thrown in
  let id := capture_result (platform w) (now w) event in
  let id' := capture_result (platform w) (now w) event' in
  SentryUtils.reportSentryEvent level message w
  = (Returned id, record (call_sentry_capture_event event id) w)
  /\ SentryUtils.reportSentryException level message exceptionType exception w
     = (Returned id', record (call_sentry_capture_event event' id') w)
  /\ SentryUtils.reportSentryException level message exceptionType exception
     = reportException_as_specified level message exceptionType exception
  /\ events_captured (after (SentryUtils.reportSentryEvent level message) w)
     = events_captured w ++ [event]
  /\ events_captured
       (after (SentryUtils.reportSentryException
                 level message exceptionType exception) w)
     = events_captured w ++ [event']
  /\ ev_logger event = "bridge-gui" /\ ev_logger event' = "bridge-gui"
  /\ ev_level event' = ev_level event /\ ev_message event' = ev_message event
  /\ ev_exceptions event' = ev_exceptions event ++ [thrown].
Proof.
  intros event thrown event' id id'.
  repeat split; unfold after;
    cbn [SentryUtils.reportSentryEvent SentryUtils.reportSentryException
         sentry_capture_event snd];
    apply events_captured_record.
Qed.

(** ** The report scope *)

Lemma run_setSentryReportScope (cfg : BuildConfig) (w : World) :
  SentryUtils.setSentryReportScope cfg w
  = (Returned tt,
     mkWorld (platform w) (fs w)
       (fold_left (fun tags kv => assoc_set (fst kv) (snd kv) tags)
                  (tags_written cfg (platform w)) (scope_tags w))
       (user_written (platform w))
       (calls w ++ scope_calls cfg (platform w))).
Proof.
  unfold SentryUtils.setSentryReportScope.
  cbv [mbind M_bind bridgelib_goos QSysInfo_currentCpuArchitecture reads
       sentry_set_tag sentry_set_user record SentryUtils.getProtectedHostname
       QSysInfo_machineHostName mret M_ret
       platform fs scope_tags scope_user calls].
  destruct w as [p f tags user cs]. cbn [fold_left tags_written fst snd].
  unfold scope_calls, user_written, protected_hostname.
  cbn [map tags_written fst snd sentry_value_set_by_key sentry_value_new_object
       assoc_set].
  rewrite <- !app_assoc. reflexivity.
Qed.

#[local] Hint Rewrite run_setSentryReportScope : run.

(** *** Keyed entries *)

Section Assoc.
Context {V : Type}.
Implicit Types (k : string) (v : V) (l : list (string * V)).

Lemma assoc_get_set k k' v l :
  assoc_get k (assoc_set k' v l)
  = if String.eqb k' k then Some v else assoc_get k l.
Proof.
  induction l as [|[k0 v0] l IH]; cbn [assoc_set assoc_get].
  - now destruct (String.eqb k' k).
  - destruct (String.eqb k0 k') eqn:E0; cbn [assoc_get].
    + apply String.eqb_eq in E0. subst k0.
      now destruct (String.eqb k' k).
    + rewrite IH. destruct (String.eqb k0 k) eqn:E1; [| reflexivity].
      apply String.eqb_eq in E1. subst k0.
      now rewrite String.eqb_sym, E0.
Qed.

Lemma assoc_set_same k v l : assoc_get k l = Some v -> assoc_set k v l = l.
Proof.
  induction l as [|[k0 v0] l IH]; cbn [assoc_set assoc_get]; [discriminate |].
  destruct (String.eqb k0 k) eqn:E0.
  - apply String.eqb_eq in E0. intros [= ->]. now subst k0.
  - intros H. now rewrite IH.
Qed.

Lemma keys_assoc_set k v l x :
  List.In x (map fst (assoc_set k v l)) -> x = k \/ List.In x (map fst l).
Proof.
  induction l as [|[k0 v0] l IH]; cbn [assoc_set map fst List.In].
  - intros [<- | []]. now left.
  - destruct (String.eqb k0 k); cbn [map fst List.In]; intuition.
Qed.

Lemma NoDup_assoc_set k v l :
  List.NoDup (map fst l) -> List.NoDup (map fst (assoc_set k v l)).
Proof.
  induction l as [|[k0 v0] l IH]; cbn [assoc_set map fst].
  - intros _. constructor; [intros [] | constructor].
  - intros Hnd. apply List.NoDup_cons_iff in Hnd as [Hfresh Hnd].
    destruct (String.eqb k0 k) eqn:E0; cbn [map fst].
    + apply String.eqb_eq in E0. subst k0. now constructor.
    + constructor; [| now apply IH].
      intros Hin. apply keys_assoc_set in Hin as [-> | Hin]; [| tauto].
      now rewrite String.eqb_refl in E0.
Qed.

Lemma entries_of_absent k l :
  ~ List.In k (map fst l) -> entries_of k l = [].
Proof.
  induction l as [|[k0 v0] l IH]; [reflexivity |].
  cbn [map fst List.In entries_of List.filter]. intros Hnot.
  destruct (String.eqb k0 k) eqn:E0.
  - apply String.eqb_eq in E0. tauto.
  - apply IH. tauto.
Qed.

(** Where no key occurs twice, the entry [assoc_get] finds is the only
    one under its key. *)
Lemma entries_of_unique k v l :
  List.NoDup (map fst l) -> assoc_get k l = Some v ->
  entries_of k l = [(k, v)].
Proof.
  induction l as [|[k0 v0] l IH]; cbn [assoc_get map fst]; [discriminate |].
  intros Hnd. apply List.NoDup_cons_iff in Hnd as [Hfresh Hnd].
  cbn [entries_of List.filter fst].
  destruct (String.eqb k0 k) eqn:E0.
  - apply String.eqb_eq in E0. subst k0. intros [= ->].
    f_equal. now apply entries_of_absent.
  - intros Hget. now apply IH.
Qed.
End Assoc.

Lemma NoDup_tags_fold (writes : list (string * string)) (tags : list (string * string)) :
  List.NoDup (map fst tags) ->
  List.NoDup (map fst (fold_left (fun tags kv => assoc_set (fst kv) (snd kv) tags)
                                 writes tags)).
Proof.
  revert tags. induction writes as [|kv writes IH]; intros tags Hnd; [exact Hnd |].
  cbn [fold_left]. apply IH. now apply NoDup_assoc_set.
Qed.

(** Each tag written is found afterwards, whatever the scope held. *)
Lemma tags_written_found (cfg : BuildConfig) (p : Platform)
    (tags : list (string * string)) (key value : string) :
  List.In (key, value) (tags_written cfg p) ->
  assoc_get key (fold_left (fun tags kv => assoc_set (fst kv) (snd kv) tags)
                           (tags_written cfg p) tags) = Some value.
Proof.
  cbn [tags_written fold_left fst snd List.In].
  intros [H | [H | [H | [H | [H | []]]]]]; injection H as <- <-;
    rewrite !assoc_get_set; reflexivity.
Qed.

Lemma tags_fold_again (cfg : BuildConfig) (p : Platform)
    (tags : list (string * string)) :
  let write := fold_left (fun tags kv => assoc_set (fst kv) (snd kv) tags)
                         (tags_written cfg p) in
  write (write tags) = write tags.
Proof.
  intros write.
  assert (Hfound : forall key value,
            List.In (key, value) (tags_written cfg p) ->
            assoc_get key (write tags) = Some value)
    by (intros; now apply tags_written_found).
  generalize dependent (write tags). intros done Hfound.
  unfold write. cbn [tags_written fold_left fst snd].
  rewrite (assoc_set_same "OS") by (apply Hfound; cbn; auto 10).
  rewrite (assoc_set_same "Client") by (apply Hfound; cbn; auto 10).
  rewrite (assoc_set_same "Version") by (apply Hfound; cbn; auto 10).
  rewrite (assoc_set_same "HostArch") by (apply Hfound; cbn; auto 10).
  apply assoc_set_same, Hfound. cbn; auto 10.
Qed.

(** C6.  Called twice in a row, [setSentryReportScope] returns both times
    and leaves the scope as one call leaves it.  Whatever the scope held
    before (no key twice), it then holds under each of the keys [OS],
    [Client], [Version], [HostArch], [server_name] one entry, the value
    just written, and the user is one object whose [id] is the protected
    host name. *)
Theorem setSentryReportScope_idempotent (cfg : BuildConfig) (w : World) :
  List.NoDup (map fst (scope_tags w)) ->
  let w1 := after (SentryUtils.setSentryReportScope cfg) w in
  let w2 := after (SentryUtils.setSentryReportScope cfg) w1 in
  outcome (SentryUtils.setSentryReportScope cfg) w = Returned tt
  /\ outcome (SentryUtils.setSentryReportScope cfg) w1 = Returned tt
  /\ scope_tags w2 = scope_tags w1
  /\ scope_user w2 = scope_user w1
  /\ List.NoDup (map fst (scope_tags w2))
  /\ (forall key value : string,
        List.In (key, value)
          [("OS", goos (platform w));
           ("Client", PROJECT_FULL_NAME cfg);
           ("Version", PROJECT_REVISION cfg);
           ("HostArch", currentCpuArchitecture (platform w));
           ("server_name",
            QByteArray_toHex
              (QCryptographicHash_hash_Sha256 (machineHostName (platform w))))] ->
        entries_of key (scope_tags w2) = [(key, value)])
  /\ scope_user w2
     = sentry_value_object
         [("id", sentry_value_new_string
                   (QByteArray_toHex
                      (QCryptographicHash_hash_Sha256
                         (machineHostName (platform w)))))].
Proof.
  intros Hnd w1 w2. subst w2 w1. unfold outcome, after.
  rewrite !run_setSentryReportScope.
  cbn [fst snd platform scope_tags scope_user].
  rewrite tags_fold_again.
  repeat split.
  - now apply NoDup_tags_fold.
  - intros key value Hin. apply entries_of_unique.
    + now apply NoDup_tags_fold.
    + now apply tags_written_found.
Qed.

Lemma after_reports_scope (rs : list Report) (w : World) :
  platform (after_reports rs w) = platform w
  /\ scope_tags (after_reports rs w) = scope_tags w
  /\ scope_user (after_reports rs w) = scope_user w.
Proof.
  revert w. induction rs as [|r rs IH]; intros w; [now repeat split |].
  cbn [after_reports]. destruct (IH (after (do_report r) w)) as (-> & -> & ->).
  now destruct r.
Qed.

(** C9.  After [setSentryReportScope] the tag [server_name] and the [id]
    of the user are the same string, the lowercase hexadecimal SHA-256
    digest of the host name, which is what [getProtectedHostname]
    returns; and they still are after any reports made from there, so
    that each of these is captured under that scope. *)
Theorem setSentryReportScope_server_name_is_user_id (cfg : BuildConfig)
    (w : World) (rs : list Report) :
  let h := QByteArray_toHex
             (QCryptographicHash_hash_Sha256 (machineHostName (platform w))) in
  let w' := after (SentryUtils.setSentryReportScope cfg) w in
  let w'' := after_reports rs w' in
  outcome SentryUtils.getProtectedHostname w = Returned h
  /\ assoc_get "server_name" (scope_tags w') = Some h
  /\ sentry_value_get_by_key (scope_user w') "id" = sentry_value_new_string h
  /\ assoc_get "server_name" (scope_tags w'') = Some h
  /\ sentry_value_get_by_key (scope_user w'') "id" = sentry_value_new_string h.
Proof.
  intros h w' w''.
  destruct (after_reports_scope rs w') as (_ & Htags & Huser).
  subst w''. rewrite Htags, Huser. subst w'. unfold after.
  rewrite run_setSentryReportScope. cbn [snd scope_tags scope_user].
  assert (Htag : assoc_get "server_name"
                   (fold_left (fun tags kv => assoc_set (fst kv) (snd kv) tags)
                              (tags_written cfg (platform w)) (scope_tags w))
                 = Some h)
    by (apply tags_written_found; cbn; auto 10).
  repeat split; assumption || reflexivity.
Qed.

(** ** The cache directory *)

(** [mkpath] only adds: what was on disk stays as it was. *)
Lemma mkpath_walk_keeps (may_create : Path -> bool) (now : nat) (root : string)
    (below above : list string) (disk disk' : gmap Path Node) (ok : bool) :
  mkpath_walk may_create now root above below disk = (ok, disk') ->
  forall (q : Path) (n : Node), disk !! q = Some n -> disk' !! q = Some n.
Proof.
  revert above disk.
  induction below as [|name below IH]; intros above disk; cbn [mkpath_walk].
  - intros [= _ <-] q n Hq. exact Hq.
  - destruct (_ !! _) as [[created | contents] |] eqn:Hhere.
    + apply IH.
    + intros [= _ <-] q n Hq. exact Hq.
    + destruct (may_create (root, above ++ [name])).
      * intros Hwalk q n Hq. eapply IH; [exact Hwalk |].
        rewrite lookup_insert_ne; [exact Hq |].
        intros Heq. subst q. congruence.
      * intros [= _ <-] q n Hq. exact Hq.
  Qed.

(** When [mkpath] says yes, the directory is there. *)
Lemma mkpath_walk_made (may_create : Path -> bool) (now : nat) (root : string)
    (below above : list string) (name : string) (disk disk' : gmap Path Node) :
  mkpath_walk may_create now root above (below ++ [name]) disk = (true, disk') ->
  exists created, disk' !! (root, above ++ below ++ [name]) = Some (Directory created).
Proof.
  revert above disk.
  induction below as [|b below IH]; intros above disk; cbn [mkpath_walk app].
  - destruct (_ !! _) as [[created | contents] |] eqn:Hhere.
    + intros [= <-]. eauto.
    + discriminate.
    + destruct (may_create (root, above ++ [name])); [| discriminate].
      intros [= <-]. exists now. apply lookup_insert_eq.
  - replace (above ++ b :: below ++ [name])
      with ((above ++ [b]) ++ below ++ [name]) by now rewrite <- app_assoc.
    destruct (_ !! _) as [[created | contents] |].
    + apply IH.
    + discriminate.
    + destruct (may_create (root, above ++ [b])); [apply IH | discriminate].
Qed.

Lemma concat_snoc (sep name c : string) (cs : list string) :
  String.concat sep ((c :: cs) ++ [name])
  = String.concat sep (c :: cs) +:+ sep +:+ name.
Proof.
  revert c. induction cs as [|c' cs IH]; intros c; [reflexivity |].
  change (c +:+ sep +:+ String.concat sep ((c' :: cs) ++ [name])
          = (c +:+ sep +:+ String.concat sep (c' :: cs)) +:+ sep +:+ name).
  rewrite IH, !append_assoc. reflexivity.
Qed.

Lemma run_sentryCacheDir (w : World) :
  let path := QDir_absoluteFilePath (userDataDir (platform w)) "sentry_cache" in
  let walk := mkpath_walk (mkdir_allowed (platform w) (now w)) (now w)
                          (fst path) [] (snd path) (fs w) in
  SentryUtils.sentryCacheDir w
  = (Returned (Path_toQString path),
     mkWorld (platform w) (snd walk) (scope_tags w) (scope_user w)
             (calls w ++ [call_mkpath path (fst walk)])).
Proof.
  intros path walk. unfold SentryUtils.sentryCacheDir, bridgelib_userDataDir.
  rewrite run_reads. fold path.
  unfold mbind, M_bind, QDir_mkpath. fold walk. now destruct walk.
Qed.

#[local] Hint Rewrite run_sentryCacheDir : run.

(** C5.  [sentryCacheDir] returns the path [sentry_cache] below the user
    data directory, whatever that directory is and whether or not
    [mkpath] succeeds.  A second call returns the same path.  Neither call
    changes anything that was on disk before it: a directory already at
    the path is the same directory afterwards. *)
Theorem sentryCacheDir_idempotent (w : World) :
  let root := userDataDir (platform w) in
  let path : Path := (fst root, snd root ++ ["sentry_cache"]) in
  let w1 := after SentryUtils.sentryCacheDir w in
  let w2 := after SentryUtils.sentryCacheDir w1 in
  outcome SentryUtils.sentryCacheDir w = Returned (Path_toQString path)
  /\ outcome SentryUtils.sentryCacheDir w1 = Returned (Path_toQString path)
  /\ Path_toQString path
     = match snd root with
       | [] => fst root +:+ "sentry_cache"
       | _ :: _ => Path_toQString root +:+ "/sentry_cache"
       end
  /\ (forall (q : Path) (n : Node), fs w !! q = Some n -> fs w1 !! q = Some n)
  /\ (forall (q : Path) (n : Node), fs w1 !! q = Some n -> fs w2 !! q = Some n)
  /\ (forall created : nat,
        fs w !! path = Some (Directory created) ->
        fs w1 !! path = Some (Directory created)
        /\ fs w2 !! path = Some (Directory created))
  /\ exists ok1 ok2 : bool,
       calls w2 = calls w ++ [call_mkpath path ok1; call_mkpath path ok2]
       /\ (ok1 = true -> exists created, fs w1 !! path = Some (Directory created)).
Proof.
  intros root path w1 w2.
  assert (Hkeep1 : forall q n, fs w !! q = Some n -> fs w1 !! q = Some n).
  { subst w1. unfold after. rewrite run_sentryCacheDir. cbn [snd fs].
    intros q n. eapply mkpath_walk_keeps. apply surjective_pairing. }
  assert (Hkeep2 : forall q n, fs w1 !! q = Some n -> fs w2 !! q = Some n).
  { subst w2. unfold after. rewrite (run_sentryCacheDir w1). cbn [snd fs].
    intros q n. eapply mkpath_walk_keeps. apply surjective_pairing. }
  assert (Hplatform : platform w1 = platform w).
  { subst w1. unfold after. now rewrite run_sentryCacheDir. }
  split; [unfold outcome; now rewrite run_sentryCacheDir |].
  split; [unfold outcome; rewrite run_sentryCacheDir, Hplatform; reflexivity |].
  split.
  { unfold Path_toQString, path. cbn [fst snd].
    destruct (snd root) as [|c cs]; [reflexivity |].
    rewrite concat_snoc, append_assoc. reflexivity. }
  split; [exact Hkeep1 |]. split; [exact Hkeep2 |].
  split; [intros created Hdir; split; auto |].
  subst w2. unfold after at 1. rewrite (run_sentryCacheDir w1). cbn [snd calls].
  rewrite Hplatform. fold root.
  subst w1. unfold after. rewrite run_sentryCacheDir. cbn [snd calls fs].
  fold root. unfold QDir_absoluteFilePath. fold path.
  do 2 eexists. split; [rewrite <- app_assoc; reflexivity |].
  cbn [fst snd path].
  destruct (mkpath_walk _ _ _ _ _ _) as [ok disk'] eqn:Hwalk.
  cbn [fst snd]. intros ->.
  exact (mkpath_walk_made _ _ _ (snd root) [] _ _ _ Hwalk).
Qed.

(** ** Initialisation *)

Lemma run_initSentry (cfg : BuildConfig) (w : World) :
  let path := QDir_absoluteFilePath (userDataDir (platform w)) "sentry_cache" in
  let walk := mkpath_walk (mkdir_allowed (platform w) (now w)) (now w)
                          (fst path) [] (snd path) (fs w) in
  let calls1 := calls w ++ [call_mkpath path (fst walk)] in
  let built :=
    SentryOptions (Some (PROJECT_DSN_SENTRY cfg)) (Some (Path_toQString path))
      (Some (label_of (os_family (platform w)) +:+ "-bridge@"
             +:+ PROJECT_VER cfg))
      (Some (PROJECT_BUILD_ENV cfg)) 50
      (opt_handler_path (options_default (platform w))) in
  let options :=
    match PROJECT_CRASHPAD_HANDLER_PATH cfg with
    | EmptyString => built
    | String _ _ =>
        sentry_options_set_handler_path built (PROJECT_CRASHPAD_HANDLER_PATH cfg)
    end in
  let rc := init_result (platform w) (length calls1) options in
  SentryUtils.initSentry cfg w
  = SentryUtils.setSentryReportScope cfg
      (mkWorld (platform w) (snd walk) (scope_tags w) (scope_user w)
         (calls1 ++ call_sentry_init options rc ::
            (if rc =? 0 then []
             else [call_stderr ("Failed to initialize sentry" +:+ LF)]))).
Proof.
  intros path walk calls1 built options rc.
  unfold SentryUtils.initSentry.
  rewrite (run_bind _ _ _ _ _ (run_sentryCacheDir w)).
  rewrite (run_bind _ _ _ _ _ (run_newSentryOptions cfg _ _ _)).
  cbv beta zeta. cbn [platform]. fold path walk calls1.
  subst rc options built.
  unfold mbind, M_bind, sentry_init, now. cbn [platform calls].
  destruct (PROJECT_CRASHPAD_HANDLER_PATH cfg) as [|c handler];
    cbn [QString_isEmpty negb];
    destruct (init_result _ _ _ =? 0);
    cbn [negb]; unfold stderr_write, record, mret, M_ret;
    cbn [platform fs scope_tags scope_user calls];
    rewrite <- ?app_assoc; reflexivity.
Qed.

#[local] Hint Rewrite run_initSentry : run.

(** C1.  [initSentry] makes the cache directory, builds the options with
    [newSentryOptions], sets the handler path on them exactly when
    [PROJECT_CRASHPAD_HANDLER_PATH] is not the empty string, and calls
    [sentry_init] with them.  Whatever [sentry_init] returns, [initSentry]
    goes on as [setSentryReportScope] does and returns; between the two it
    writes the one line ["Failed to initialize sentry"] to the standard
    error when the return code is not zero, and nothing when it is.  It
    writes nothing else there. *)
Theorem initSentry_sequence (cfg : BuildConfig) (w : World) :
  let cache := QDir_absoluteFilePath (userDataDir (platform w)) "sentry_cache" in
  let w1 := after SentryUtils.sentryCacheDir w in
  exists built : sentry_options_t,
    outcome (SentryUtils.newSentryOptions cfg (PROJECT_DSN_SENTRY cfg)
               (Path_toQString cache)) w1 = Returned built
    /\ let handler := PROJECT_CRASHPAD_HANDLER_PATH cfg in
       let options :=
         match handler with
         | EmptyString => built
         | String _ _ => sentry_options_set_handler_path built handler
         end in
       let rc := init_result (platform w) (now w1) options in
       let diagnostic :=
         if rc =? 0 then []
         else [call_stderr ("Failed to initialize sentry" +:+ LF)] in
       let w2 :=
         mkWorld (platform w) (fs w1) (scope_tags w) (scope_user w)
                 (calls w1 ++ call_sentry_init options rc :: diagnostic) in
       SentryUtils.initSentry cfg w = SentryUtils.setSentryReportScope cfg w2
       /\ outcome (SentryUtils.initSentry cfg) w = Returned tt
       /\ (exists ok : bool, calls w1 = calls w ++ [call_mkpath cache ok])
       /\ calls (after (SentryUtils.initSentry cfg) w)
          = calls w1 ++ call_sentry_init options rc :: diagnostic
            ++ scope_calls cfg (platform w)
       /\ stderr_written (after (SentryUtils.initSentry cfg) w)
          = stderr_written w
            ++ (if rc =? 0 then [] else ["Failed to initialize sentry" +:+ LF]).
Proof.
  intros cache w1.
  pose proof (run_initSentry cfg w) as Hrun. cbv zeta in Hrun.
  subst w1. unfold after, outcome, now, stderr_written.
  rewrite run_sentryCacheDir, run_newSentryOptions.
  cbn [fst snd platform fs calls]. fold cache.
  eexists. split; [reflexivity |].
  cbv zeta. split; [exact Hrun |].
  rewrite Hrun, run_setSentryReportScope. cbn [fst snd calls platform].
  split; [reflexivity |].
  split; [eexists; reflexivity |].
  split; [now rewrite <- app_assoc |].
  unfold stderr_of. rewrite !flat_map_app. cbn [flat_map app].
  destruct (_ =? 0); cbn [flat_map app]; now rewrite !app_nil_r.
Qed.

Lemma getProtectedHostname_witness :
  machineHostName (platform (at_start (desktop true 0)))
  = machineHostName (platform (with_cache (desktop false 1)))
  /\ outcome SentryUtils.getProtectedHostname (at_start (desktop true 0))
     = outcome SentryUtils.getProtectedHostname (with_cache (desktop false 1)).
Proof.
  split; [reflexivity |].
  exact (proj1 (getProtectedHostname_deterministic_hex
                  (at_start (desktop true 0)) (with_cache (desktop false 1))
                  eq_refl)).
Defined.

Lemma appVersion_witness :
  outcome SentryUtils.getApiOS (at_start (desktop true 0)) = Returned "linux"
  /\ SentryUtils.appVersion "1.2.3" (at_start (desktop true 0))
     = (Returned "linux-bridge@1.2.3", at_start (desktop true 0)).
Proof.
  split; [reflexivity |].
  exact (proj2 (appVersion_format (at_start (desktop true 0)) "1.2.3" "linux"
                  eq_refl) eq_refl).
Defined.

Lemma setSentryReportScope_witness :
  List.NoDup (map fst (scope_tags (at_start (desktop true 0))))
  /\ entries_of "OS"
       (scope_tags
          (after (SentryUtils.setSentryReportScope bridge_build)
             (after (SentryUtils.setSentryReportScope bridge_build)
                (at_start (desktop true 0)))))
     = [("OS", "linux")].
Proof.
  assert (Hnd : List.NoDup (map fst (scope_tags (at_start (desktop true 0))))).
  { cbn. repeat constructor; cbn; intuition discriminate. }
  split; [exact Hnd |].
  destruct (setSentryReportScope_idempotent bridge_build
              (at_start (desktop true 0)) Hnd)
    as (_ & _ & _ & _ & _ & Hkeys & _).
  apply Hkeys. cbn. auto.
Defined.

Lemma sentryCacheDir_witness :
  let path : Path := ("/", ["home"; "ada"; "bridge-v3"; "sentry_cache"]) in
  fs (with_cache (desktop false 1)) !! path = Some (Directory 4)
  /\ fs (after SentryUtils.sentryCacheDir
           (after SentryUtils.sentryCacheDir (with_cache (desktop false 1))))
     !! path = Some (Directory 4).
Proof.
  intros path.
  assert (Hdir : fs (with_cache (desktop false 1)) !! path = Some (Directory 4))
    by (vm_compute; reflexivity).
  split; [exact Hdir |].
  destruct (sentryCacheDir_idempotent (with_cache (desktop false 1)))
    as (_ & _ & _ & _ & _ & Hsame & _).
  exact (proj2 (Hsame 4%nat Hdir)).
Defined.

(** * Further properties *)

(** ** The cache directory on disk *)

(** [mkpath] says yes exactly when, afterwards, every directory on the way
    is there. *)
Lemma mkpath_walk_result (may_create : Path -> bool) (now : nat) (root : string)
    (below above : list string) (disk disk' : gmap Path Node) (ok : bool) :
  mkpath_walk may_create now root above below disk = (ok, disk') ->
  ok = forallb (is_directory disk') (ways_down root above below).
Proof.
  revert above disk.
  induction below as [|name below IH]; intros above disk;
    cbn [mkpath_walk ways_down forallb].
  - now intros [= <- _].
  - destruct (_ !! _) as [[created | contents] |] eqn:Hhere.
    + intros Hwalk. unfold is_directory at 1.
      rewrite (mkpath_walk_keeps _ _ _ _ _ _ _ _ Hwalk _ _ Hhere).
      now apply IH in Hwalk.
    + intros [= <- <-]. unfold is_directory at 1. now rewrite Hhere.
    + destruct (may_create (root, above ++ [name])).
      * intros Hwalk. unfold is_directory at 1.
        rewrite (mkpath_walk_keeps _ _ _ _ _ _ _ _ Hwalk
                   (root, above ++ [name]) (Directory now))
          by apply lookup_insert_eq.
        now apply IH in Hwalk.
      * intros [= <- <-]. unfold is_directory at 1. now rewrite Hhere.
Qed.

(** Where they all are there already, [mkpath] says yes and makes nothing,
    whether or not it could. *)
Lemma mkpath_walk_existing (may_create : Path -> bool) (now : nat) (root : string)
    (below above : list string) (disk : gmap Path Node) :
  forallb (is_directory disk) (ways_down root above below) = true ->
  mkpath_walk may_create now root above below disk = (true, disk).
Proof.
  revert above.
  induction below as [|name below IH]; intros above;
    cbn [mkpath_walk ways_down forallb]; [reflexivity |].
  intros [Hhere Hrest]%andb_prop. unfold is_directory in Hhere.
  destruct (_ !! _) as [[created | contents] |]; try discriminate.
  now apply IH.
Qed.

(** [mkpath] changes the disk only by making directories on the way. *)
Lemma mkpath_walk_frame (may_create : Path -> bool) (now : nat) (root : string)
    (below above : list string) (disk disk' : gmap Path Node) (ok : bool) :
  mkpath_walk may_create now root above below disk = (ok, disk') ->
  forall q : Path,
    disk' !! q = disk !! q
    \/ (List.In q (ways_down root above below)
        /\ disk !! q = None /\ disk' !! q = Some (Directory now)).
Proof.
  revert above disk.
  induction below as [|name below IH]; intros above disk;
    cbn [mkpath_walk ways_down List.In].
  - intros [= _ <-] q. now left.
  - destruct (_ !! _) as [[created | contents] |] eqn:Hhere.
    + intros Hwalk q. destruct (IH _ _ Hwalk q) as [Hsame | (Hin & Hnone & Hnew)];
        [now left | right; auto].
    + intros [= _ <-] q. now left.
    + destruct (may_create (root, above ++ [name])).
      * intros Hwalk q.
        destruct (decide (q = (root, above ++ [name]))) as [-> | Hne].
        { right. split; [now left |]. split; [exact Hhere |].
          eapply mkpath_walk_keeps; [exact Hwalk | apply lookup_insert_eq]. }
        destruct (IH _ _ Hwalk q) as [Hsame | (Hin & Hnone & Hnew)].
        { left. rewrite Hsame. now apply lookup_insert_ne. }
        right. split; [now right |]. split; [| exact Hnew].
        rewrite <- Hnone. symmetry. now apply lookup_insert_ne.
      * intros [= _ <-] q. now left.
Qed.

(** X1.  [sentryCacheDir] changes the disk only by making directories, on
    the way from the root to the cache path, where nothing was; every
    other path holds what it held. *)
Theorem sentryCacheDir_only_adds_on_its_path (w : World) (q : Path) :
  let w' := after SentryUtils.sentryCacheDir w in
  fs w' !! q = fs w !! q
  \/ (List.In q (ancestors (cache_path w))
      /\ fs w !! q = None /\ fs w' !! q = Some (Directory (now w))).
Proof.
  intros w'. subst w'. unfold after.
  rewrite run_sentryCacheDir. cbn [snd fs].
  eapply mkpath_walk_frame. apply surjective_pairing.
Qed.

(** X2.  The answer of [mkpath] that [sentryCacheDir] drops is yes exactly
    when, after the call, the cache directory and every directory above
    it are there. *)
Theorem sentryCacheDir_answer_matches_disk (w : World) :
  calls (after SentryUtils.sentryCacheDir w)
  = calls w
    ++ [call_mkpath (cache_path w)
          (all_directories (fs (after SentryUtils.sentryCacheDir w))
                           (cache_path w))].
Proof.
  unfold after. rewrite run_sentryCacheDir. cbn [snd calls fs].
  do 3 f_equal. eapply mkpath_walk_result. apply surjective_pairing.
Qed.

(** X3.  Where the cache directory and the directories above it are there
    already, [sentryCacheDir] leaves the disk as it is and [mkpath] says
    yes, also when no directory can be made. *)
Theorem sentryCacheDir_on_existing_directory (w : World) :
  all_directories (fs w) (cache_path w) = true ->
  SentryUtils.sentryCacheDir w
  = (Returned (Path_toQString (cache_path w)),
     record (call_mkpath (cache_path w) true) w).
Proof.
  intros Hall. rewrite run_sentryCacheDir. fold (cache_path w).
  rewrite (mkpath_walk_existing _ _ _ _ _ _ Hall). reflexivity.
Qed.

Lemma sentryCacheDir_on_existing_directory_witness :
  all_directories (fs (with_cache (desktop false 1)))
                  (cache_path (with_cache (desktop false 1))) = true
  /\ after SentryUtils.sentryCacheDir (with_cache (desktop false 1))
     = record (call_mkpath (cache_path (with_cache (desktop false 1))) true)
              (with_cache (desktop false 1)).
Proof.
  assert (Hall : all_directories (fs (with_cache (desktop false 1)))
                   (cache_path (with_cache (desktop false 1))) = true)
    by (vm_compute; reflexivity).
  split; [exact Hall |].
  unfold after.
  now rewrite (sentryCacheDir_on_existing_directory _ Hall).
Defined.

(** X4.  Once [mkpath] has said yes, a second [sentryCacheDir] leaves the
    disk as the first left it and [mkpath] says yes again, also when no
    directory can be made any more. *)
Theorem sentryCacheDir_again_after_success (w : World) :
  let w1 := after SentryUtils.sentryCacheDir w in
  let w2 := after SentryUtils.sentryCacheDir w1 in
  calls w1 = calls w ++ [call_mkpath (cache_path w) true] ->
  fs w2 = fs w1
  /\ calls w2 = calls w1 ++ [call_mkpath (cache_path w) true].
Proof.
  intros w1 w2 Hyes.
  assert (Hp : platform w1 = platform w)
    by (subst w1; unfold after; now rewrite run_sentryCacheDir).
  assert (Hall : all_directories (fs w1) (cache_path w1) = true).
  { unfold cache_path. rewrite Hp. fold (cache_path w).
    subst w1. unfold after in *. rewrite run_sentryCacheDir in *.
    cbn [snd calls fs] in *. fold (cache_path w) in *.
    apply app_inv_head in Hyes. injection Hyes as Hyes.
    unfold all_directories, ancestors.
    erewrite <- mkpath_walk_result; [exact Hyes | apply surjective_pairing]. }
  subst w2. unfold after.
  rewrite (run_sentryCacheDir w1). fold (cache_path w1).
  rewrite (mkpath_walk_existing _ _ _ _ _ _ Hall). cbn [snd fs calls fst].
  unfold cache_path. now rewrite Hp.
Qed.

Lemma sentryCacheDir_again_after_success_witness :
  let w := at_start closing_desktop in
  calls (after SentryUtils.sentryCacheDir w)
  = calls w ++ [call_mkpath (cache_path w) true]
  /\ fs (after SentryUtils.sentryCacheDir (after SentryUtils.sentryCacheDir w))
     = fs (after SentryUtils.sentryCacheDir w).
Proof.
  intros w.
  assert (Hyes : calls (after SentryUtils.sentryCacheDir w)
                 = calls w ++ [call_mkpath (cache_path w) true])
    by (vm_compute; reflexivity).
  split; [exact Hyes |].
  exact (proj1 (sentryCacheDir_again_after_success w Hyes)).
Defined.

(** X5.  Where a regular file has the name of the cache directory or of a
    directory above it, [sentryCacheDir] returns the path all the same,
    [mkpath] having said no, and leaves the file; [initSentry] then hands
    [sentry_init] that path as the database path and returns. *)
Theorem sentryCacheDir_file_in_the_way (cfg : BuildConfig) (w : World)
    (q : Path) (contents : string) :
  List.In q (ancestors (cache_path w)) ->
  fs w !! q = Some (RegularFile contents) ->
  outcome SentryUtils.sentryCacheDir w
  = Returned (Path_toQString (cache_path w))
  /\ calls (after SentryUtils.sentryCacheDir w)
     = calls w ++ [call_mkpath (cache_path w) false]
  /\ fs (after SentryUtils.sentryCacheDir w) !! q = Some (RegularFile contents)
  /\ outcome (SentryUtils.initSentry cfg) w = Returned tt
  /\ exists (options : sentry_options_t) (rc : Z),
       List.In (call_sentry_init options rc)
               (calls (after (SentryUtils.initSentry cfg) w))
       /\ opt_database_path options = Some (Path_toQString (cache_path w)).
Proof.
  intros Hway Hfile.
  pose proof (run_sentryCacheDir w) as Hrun. cbv zeta in Hrun.
  fold (cache_path w) in Hrun.
  pose proof (run_initSentry cfg w) as Hinit. cbv zeta in Hinit.
  fold (cache_path w) in Hinit.
  destruct (mkpath_walk _ _ _ _ _ _) as [ok disk'] eqn:Hwalk.
  cbn [fst snd] in Hrun, Hinit.
  assert (Hkept : disk' !! q = Some (RegularFile contents))
    by (eapply mkpath_walk_keeps; eassumption).
  assert (Hno : ok = false).
  { rewrite (mkpath_walk_result _ _ _ _ _ _ _ _ Hwalk).
    apply not_true_is_false. intros Hall.
    rewrite forallb_forall in Hall. specialize (Hall q Hway).
    unfold is_directory in Hall. now rewrite Hkept in Hall. }
  subst ok. unfold outcome, after. rewrite Hrun, Hinit, run_setSentryReportScope.
  cbn [fst snd calls fs].
  repeat split; try assumption.
  do 2 eexists. split.
  { apply in_or_app. left. apply in_or_app. right. left. reflexivity. }
  now destruct (PROJECT_CRASHPAD_HANDLER_PATH cfg).
Qed.

Lemma sentryCacheDir_file_in_the_way_witness :
  let w := with_file_in_the_way (desktop true 0) in
  let q : Path := ("/", ["home"; "ada"; "bridge-v3"]) in
  (List.In q (ancestors (cache_path w))
   /\ fs w !! q = Some (RegularFile "notes"))
  /\ calls (after SentryUtils.sentryCacheDir w)
     = calls w ++ [call_mkpath (cache_path w) false].
Proof.
  intros w q.
  assert (Hway : List.In q (ancestors (cache_path w)))
    by (vm_compute; auto).
  assert (Hfile : fs w !! q = Some (RegularFile "notes"))
    by (vm_compute; reflexivity).
  split; [split; assumption |].
  exact (proj1 (proj2 (sentryCacheDir_file_in_the_way
                         bridge_build w q "notes" Hway Hfile))).
Defined.

(** ** The tags of the scope *)

Lemma entries_of_assoc_set_ne {V : Type} (k k' : string) (v : V)
    (l : list (string * V)) :
  k' <> k -> entries_of k (assoc_set k' v l) = entries_of k l.
Proof.
  intros Hne. apply String.eqb_neq in Hne.
  induction l as [|[k0 v0] l IH]; cbn [assoc_set].
  - unfold entries_of. cbn [List.filter fst]. now rewrite Hne.
  - destruct (String.eqb k0 k') eqn:E0.
    + apply String.eqb_eq in E0. subst k0.
      unfold entries_of. cbn [List.filter fst]. now rewrite Hne.
    + unfold entries_of in *. cbn [List.filter fst]. now rewrite IH.
Qed.

Lemma has_key_assoc_set {V : Type} (k k' : string) (v : V)
    (l : list (string * V)) :
  has_key k (assoc_set k' v l) = String.eqb k' k || has_key k l.
Proof.
  induction l as [|[k0 v0] l IH]; cbn [assoc_set]; [reflexivity |].
  destruct (String.eqb k0 k') eqn:E0.
  - apply String.eqb_eq in E0. subst k0. unfold has_key. cbn [existsb fst].
    now destruct (String.eqb k' k).
  - unfold has_key in *. cbn [existsb fst]. rewrite IH.
    now destruct (String.eqb k0 k), (String.eqb k' k).
Qed.

Lemma keys_assoc_set_eq {V : Type} (k : string) (v : V) (l : list (string * V)) :
  map fst (assoc_set k v l)
  = map fst l ++ (if has_key k l then [] else [k]).
Proof.
  induction l as [|[k0 v0] l IH]; cbn [assoc_set]; [reflexivity |].
  unfold has_key in *. cbn [existsb fst].
  destruct (String.eqb k0 k) eqn:E0; cbn [map fst orb app].
  - apply String.eqb_eq in E0. subst k0. now rewrite app_nil_r.
  - now rewrite IH.
Qed.

(** X6.  [setSentryReportScope] leaves every tag whose key is none of its
    five as it was. *)
Theorem setSentryReportScope_keeps_other_tags (cfg : BuildConfig) (w : World)
    (key : string) :
  ~ List.In key scope_keys ->
  entries_of key (scope_tags (after (SentryUtils.setSentryReportScope cfg) w))
  = entries_of key (scope_tags w)
  /\ assoc_get key (scope_tags (after (SentryUtils.setSentryReportScope cfg) w))
     = assoc_get key (scope_tags w).
Proof.
  intros Hother. unfold after. rewrite run_setSentryReportScope.
  cbn [snd scope_tags tags_written fold_left fst].
  assert (Hne : forall k, List.In k scope_keys -> k <> key)
    by (intros k Hin ->; contradiction).
  assert (Heqb : forall k, List.In k scope_keys -> String.eqb k key = false)
    by (intros k Hin; now apply String.eqb_neq, Hne).
  split.
  - rewrite !entries_of_assoc_set_ne; [reflexivity | ..];
      apply Hne; cbn; auto 10.
  - rewrite !assoc_get_set, !Heqb; [reflexivity | ..]; cbn; auto 10.
Qed.

Lemma setSentryReportScope_keeps_other_tags_witness :
  ~ List.In "Build" scope_keys
  /\ assoc_get "Build"
       (scope_tags (after (SentryUtils.setSentryReportScope bridge_build)
                          (at_start (desktop true 0))))
     = Some "nightly".
Proof.
  assert (Hother : ~ List.In "Build" scope_keys)
    by (cbn; intuition discriminate).
  split; [exact Hother |].
  exact (proj2 (setSentryReportScope_keeps_other_tags
                  bridge_build (at_start (desktop true 0)) "Build" Hother)).
Defined.

(** X7.  The keys that were in the scope keep their places; those of the
    five that were missing come after them, in the order [OS], [Client],
    [Version], [HostArch], [server_name]. *)
Theorem setSentryReportScope_keys_order (cfg : BuildConfig) (w : World) :
  map fst (scope_tags (after (SentryUtils.setSentryReportScope cfg) w))
  = map fst (scope_tags w)
    ++ List.filter (fun k => negb (has_key k (scope_tags w))) scope_keys.
Proof.
  unfold after. rewrite run_setSentryReportScope.
  cbn [snd scope_tags tags_written fold_left fst].
  rewrite !keys_assoc_set_eq, !has_key_assoc_set.
  cbn [scope_keys List.filter].
  destruct (has_key "OS" _), (has_key "Client" _), (has_key "Version" _),
    (has_key "HostArch" _), (has_key "server_name" _);
    cbn; rewrite <- ?app_assoc, ?app_nil_r; reflexivity.
Qed.

(** ** Initialisation and the scope together *)

Lemma scope_of_setSentryReportScope (cfg : BuildConfig) (w : World) :
  platform (after (SentryUtils.setSentryReportScope cfg) w) = platform w
  /\ scope_tags (after (SentryUtils.setSentryReportScope cfg) w)
     = write_tags cfg (platform w) (scope_tags w)
  /\ scope_user (after (SentryUtils.setSentryReportScope cfg) w)
     = user_written (platform w).
Proof. unfold after. now rewrite run_setSentryReportScope. Qed.

Lemma scope_of_initSentry (cfg : BuildConfig) (w : World) :
  platform (after (SentryUtils.initSentry cfg) w) = platform w
  /\ scope_tags (after (SentryUtils.initSentry cfg) w)
     = write_tags cfg (platform w) (scope_tags w)
  /\ scope_user (after (SentryUtils.initSentry cfg) w)
     = user_written (platform w).
Proof.
  unfold after. rewrite run_initSentry.
  now rewrite run_setSentryReportScope.
Qed.

(** Two [setSentryReportScope] in a row leave the scope of one, whatever
    the scope held, a key twice included. *)
Lemma setSentryReportScope_twice (cfg : BuildConfig) (w : World) :
  let w1 := after (SentryUtils.setSentryReportScope cfg) w in
  scope_tags (after (SentryUtils.setSentryReportScope cfg) w1) = scope_tags w1
  /\ scope_user (after (SentryUtils.setSentryReportScope cfg) w1) = scope_user w1.
Proof.
  intros w1.
  destruct (scope_of_setSentryReportScope cfg w1) as (_ & -> & ->).
  destruct (scope_of_setSentryReportScope cfg w) as (Hp & Htags & Huser).
  fold w1 in Hp, Htags, Huser. rewrite Hp, Htags, Huser.
  pose proof (tags_fold_again cfg (platform w) (scope_tags w)) as Hagain.
  unfold write_tags. cbv zeta in Hagain. now rewrite Hagain.
Qed.

(** X8.  [initSentry] ends with [setSentryReportScope], so a
    [setSentryReportScope] called after it leaves the tags and the user
    of the scope as they are.  This holds whatever scope [sentry_init]
    leaves behind: only the last step of [initSentry] is used. *)
Theorem setSentryReportScope_after_initSentry (cfg : BuildConfig) (w : World) :
  let w1 := after (SentryUtils.initSentry cfg) w in
  (exists w0 : World,
     SentryUtils.initSentry cfg w = SentryUtils.setSentryReportScope cfg w0)
  /\ scope_tags (after (SentryUtils.setSentryReportScope cfg) w1) = scope_tags w1
  /\ scope_user (after (SentryUtils.setSentryReportScope cfg) w1) = scope_user w1.
Proof.
  intros w1. pose proof (run_initSentry cfg w) as Hrun. cbv zeta in Hrun.
  match type of Hrun with
  | _ = SentryUtils.setSentryReportScope _ ?x => set (w0 := x) in Hrun
  end.
  clearbody w0.
  assert (Hw1 : w1 = after (SentryUtils.setSentryReportScope cfg) w0)
    by (subst w1; unfold after; now rewrite Hrun).
  split; [exists w0; exact Hrun |].
  rewrite Hw1. apply setSentryReportScope_twice.
Qed.

(** X9.  [sentryCacheDir], [setSentryReportScope] and [initSentry] hand no
    event to the client, and [setSentryReportScope] writes nothing to the
    standard error. *)
Theorem only_reports_capture_events (cfg : BuildConfig) (w : World) :
  events_captured (after SentryUtils.sentryCacheDir w) = events_captured w
  /\ events_captured (after (SentryUtils.setSentryReportScope cfg) w)
     = events_captured w
  /\ events_captured (after (SentryUtils.initSentry cfg) w) = events_captured w
  /\ stderr_written (after (SentryUtils.setSentryReportScope cfg) w)
     = stderr_written w.
Proof.
  unfold after, events_captured, stderr_written, stderr_of.
  autorewrite with run.
  cbn [snd calls]. rewrite !flat_map_app. cbn [flat_map app].
  rewrite !app_nil_r.
  repeat split.
  destruct (_ =? 0); cbn [flat_map app]; now rewrite !app_nil_r.
Qed.

(** X10.  After [initSentry], whether or not [sentry_init] succeeded, and
    after any reports made from there, the scope holds the five tags with
    the values of this platform and this build, and the [id] of the user
    is the value of the tag [server_name]. *)
Theorem scope_after_initSentry_and_reports (cfg : BuildConfig) (w : World)
    (rs : list Report) (key value : string) :
  List.In (key, value) (tags_written cfg (platform w)) ->
  let w' := after_reports rs (after (SentryUtils.initSentry cfg) w) in
  assoc_get key (scope_tags w') = Some value
  /\ (exists h : string,
        assoc_get "server_name" (scope_tags w') = Some h
        /\ sentry_value_get_by_key (scope_user w') "id"
           = sentry_value_new_string h).
Proof.
  intros Hin w'.
  destruct (after_reports_scope rs (after (SentryUtils.initSentry cfg) w))
    as (_ & Htags & Huser).
  destruct (scope_of_initSentry cfg w) as (_ & Htags' & Huser').
  subst w'. rewrite Htags, Huser, Htags', Huser'. unfold write_tags.
  split; [now apply tags_written_found |].
  exists (protected_hostname (platform w)). split; [| reflexivity].
  apply tags_written_found. cbn. auto 10.
Qed.

Lemma scope_after_initSentry_and_reports_witness :
  List.In ("Client", "Proton Mail Bridge")
          (tags_written bridge_build (platform (at_start (desktop false 1))))
  /\ assoc_get "Client"
       (scope_tags
          (after_reports [report_event SENTRY_LEVEL_INFO "started"]
             (after (SentryUtils.initSentry bridge_build)
                    (at_start (desktop false 1)))))
     = Some "Proton Mail Bridge".
Proof.
  assert (Hin : List.In ("Client", "Proton Mail Bridge")
                  (tags_written bridge_build
                     (platform (at_start (desktop false 1)))))
    by (cbn; auto).
  split; [exact Hin |].
  exact (proj1 (scope_after_initSentry_and_reports bridge_build
                  (at_start (desktop false 1))
                  [report_event SENTRY_LEVEL_INFO "started"] _ _ Hin)).
Defined.

(** ** Reports *)

Lemma after_do_report (r : Report) (w : World) :
  after (do_report r) w
  = record (call_sentry_capture_event (event_of r)
              (capture_result (platform w) (now w) (event_of r))) w.
Proof. now destruct r. Qed.

(** X11.  A run of reports hands the client one event for each, in the
    order of the calls; it makes no other call that leaves the process,
    and writes nothing to the standard error. *)
Theorem reports_captured_in_order (rs : list Report) (w : World) :
  events_captured (after_reports rs w) = events_captured w ++ map event_of rs
  /\ length (calls (after_reports rs w)) = (length (calls w) + length rs)%nat
  /\ stderr_written (after_reports rs w) = stderr_written w.
Proof.
  revert w. induction rs as [|r rs IH]; intros w; cbn [after_reports map length].
  - rewrite app_nil_r, Nat.add_0_r. now repeat split.
  - destruct (IH (after (do_report r) w)) as (-> & -> & ->).
    rewrite after_do_report, events_captured_record.
    unfold stderr_written, stderr_of, record. cbn [calls].
    rewrite flat_map_app, length_app, <- app_assoc. cbn [flat_map app length].
    rewrite app_nil_r. repeat split. lia.
Qed.

(** ** Release names and protected host names *)

(** X12.  The release name tells the label and the version apart: where
    [appVersion] returns the same string for two versions, on the same or
    on two systems, the labels of the systems are the same and so are the
    versions. *)
Theorem appVersion_injective (w1 w2 : World) (v1 v2 : QString) :
  outcome (SentryUtils.appVersion v1) w1 = outcome (SentryUtils.appVersion v2) w2 ->
  outcome SentryUtils.getApiOS w1 = outcome SentryUtils.getApiOS w2
  /\ v1 = v2.
Proof.
  unfold outcome. rewrite !run_appVersion, !run_getApiOS. cbn [fst].
  intros [= Hsame].
  destruct (os_family (platform w1)), (os_family (platform w2));
    cbn [label_of] in *; vm_compute in Hsame;
    try discriminate Hsame; now injection Hsame as ->.
Qed.

Lemma appVersion_injective_witness :
  outcome (SentryUtils.appVersion "3.0.21") (at_start (desktop true 0))
  = outcome (SentryUtils.appVersion "3.0.21") (with_cache (desktop false 1))
  /\ outcome SentryUtils.getApiOS (at_start (desktop true 0))
     = outcome SentryUtils.getApiOS (with_cache (desktop false 1)).
Proof.
  split; [reflexivity |].
  exact (proj1 (appVersion_injective (at_start (desktop true 0))
                  (with_cache (desktop false 1)) "3.0.21" "3.0.21" eq_refl)).
Defined.

Lemma hex_decode_byte (c : ascii) :
  byte_of_Z (hex_value (hex_digit (Z_of_byte c / 16)) * 16
             + hex_value (hex_digit (Z_of_byte c mod 16))) = c.
Proof.
  destruct c as [[] [] [] [] [] [] [] []]; vm_compute; reflexivity.
Qed.

Lemma hex_decode_toHex (b : QByteArray) :
  hex_decode (QByteArray_toHex b) = b.
Proof.
  induction b as [|c b IH]; [reflexivity |].
  cbn [QByteArray_toHex hex_decode]. now rewrite hex_decode_byte, IH.
Qed.

(** X13.  The protected host name loses nothing of the digest: read back
    as hexadecimal it is the 32 bytes of the SHA-256 digest of the host
    name. *)
Theorem getProtectedHostname_decodes_to_digest (w : World) :
  exists h : QByteArray,
    outcome SentryUtils.getProtectedHostname w = Returned h
    /\ hex_decode h
       = QCryptographicHash_hash_Sha256 (machineHostName (platform w))
    /\ String.length (hex_decode h) = 32%nat.
Proof.
  unfold outcome. rewrite run_getProtectedHostname. cbn [fst].
  eexists. split; [reflexivity |].
  rewrite hex_decode_toHex. split; [reflexivity | apply length_Sha256].
Qed.

(** ** The model at work *)

Example sha256_abc :
  QByteArray_toHex (QCryptographicHash_hash_Sha256 "abc")
  = "ba7816bf8f01cfea414140de5dae2223b00361a396177a9cb410ff61f20015ad".
Proof. vm_compute. reflexivity. Qed.

Example sha256_of_nothing :
  QByteArray_toHex (QCryptographicHash_hash_Sha256 "")
  = "e3b0c44298fc1c149afbf4c8996fb92427ae41e4649b934ca495991b7852b855".
Proof. vm_compute. reflexivity. Qed.

Example sha256_two_blocks :
  QByteArray_toHex (QCryptographicHash_hash_Sha256
    "abcdbcdecdefdefgefghfghighijhijkijkljklmklmnlmnomnopnopq")
  = "248d6a61d20638b8e5c026930c3e6039a33ce45964ff2167f6ecedd419db06c1".
Proof. vm_compute. reflexivity. Qed.

Example sha256_round_constants :
  nth 0 Sha256.K 0 = 0x428a2f98 /\ nth 63 Sha256.K 0 = 0xc67178f2
  /\ Sha256.ra Sha256.H0 = 0x6a09e667 /\ Sha256.rh Sha256.H0 = 0x5be0cd19.
Proof. repeat split. Qed.

Example appVersion_on_macOS :
  outcome (SentryUtils.appVersion "3.0.21")
    (mkWorld {| userDataDir := ("/", ["Users"; "ada"]);
                os_family := MacOS; goos := "darwin";
                machineHostName := "mac"; currentCpuArchitecture := "arm64";
                options_default := options_default (desktop true 0);
                mkdir_allowed := fun _ _ => true;
                init_result := fun _ _ => 0;
                capture_result := fun _ _ => 0 |}
             ∅ [] sentry_value_new_null [])
  = Returned "macos-bridge@3.0.21".
Proof. reflexivity. Qed.

(** Nothing can be written and [sentry_init] fails: the line goes to the
    standard error and the scope is set all the same. *)
Example initSentry_when_all_fails :
  SentryUtils.initSentry bridge_build (at_start (desktop false 1))
  = (Returned tt,
     mkWorld (desktop false 1) (fs (at_start (desktop false 1)))
       [("OS", "linux"); ("Build", "nightly");
        ("Client", "Proton Mail Bridge"); ("Version", "3.0.21+git");
        ("HostArch", "x86_64");
        ("server_name",
         "d195d36bd79da7df853b78f0b539b75f002819330c13b6438bbbe89a8f4f267a")]
       (sentry_value_object
          [("id", sentry_value_new_string
             "d195d36bd79da7df853b78f0b539b75f002819330c13b6438bbbe89a8f4f267a")])
       [call_mkpath ("/", ["home"; "ada"; "bridge-v3"; "sentry_cache"]) false;
        call_sentry_init
          (SentryOptions (Some "https://key@sentry.example/1")
             (Some "/home/ada/bridge-v3/sentry_cache")
             (Some "linux-bridge@3.0.21") (Some "dev") 50
             (Some "/usr/lib/bridge/crashpad_handler")) 1;
        call_stderr ("Failed to initialize sentry" +:+ LF);
        call_sentry_set_tag "OS" "linux";
        call_sentry_set_tag "Client" "Proton Mail Bridge";
        call_sentry_set_tag "Version" "3.0.21+git";
        call_sentry_set_tag "HostArch" "x86_64";
        call_sentry_set_tag "server_name"
          "d195d36bd79da7df853b78f0b539b75f002819330c13b6438bbbe89a8f4f267a";
        call_sentry_set_user
          (sentry_value_object
             [("id", sentry_value_new_string
                "d195d36bd79da7df853b78f0b539b75f002819330c13b6438bbbe89a8f4f267a")])]).
Proof. vm_compute. reflexivity. Qed.

(** The directories that are missing are made, the others stay. *)
Example sentryCacheDir_makes_directories :
  let disk := fs (after SentryUtils.sentryCacheDir (at_start (desktop true 0))) in
  disk !! ("/", ["home"; "ada"]) = Some (Directory 0)
  /\ disk !! ("/", ["home"; "ada"; "bridge-v3"]) = Some (Directory 0)
  /\ disk !! ("/", ["home"; "ada"; "bridge-v3"; "sentry_cache"])
     = Some (Directory 0)
  /\ size disk = 4%nat.
Proof. vm_compute. repeat split. Qed.
